(** * verify_blocking.py : a textual check for a blocking call

    The script reads one Kotlin source file as text, searches it with a single
    regular expression under [re.DOTALL] and prints one of two fixed lines.

    The development has three layers:
    - [Re]     : the fragment of Python's [re] that the pattern uses
                 (literals, escaped punctuation, [.], the lazy star), as a
                 parser for the pattern text and a backtracking matcher;
    - [Os]     : files, standard output and uncaught exceptions, as a state
                 and error monad over a [world];
    - [Script] : the script itself, statement by statement. *)

From Stdlib Require Import Bool Arith Lia List Ascii String.
Import ListNotations.
Open Scope string_scope.

(** ** Strings

    The text of the file (a Python [str]) is a [string], character by
    character; the pattern and both messages are plain ASCII. *)

Module Str.

(** [strip m s] removes the prefix [m] from [s] when it is there. *)
Fixpoint strip (m s : string) : option string :=
  match m with
  | "" => Some s
  | String a m' =>
      match s with
      | "" => None
      | String c s' => if Ascii.eqb a c then strip m' s' else None
      end
  end.

(** [find m s] is Python's [m in s]: does [m] occur in [s] as a substring? *)
Fixpoint find (m s : string) : bool :=
  match strip m s with
  | Some _ => true
  | None => match s with "" => false | String _ s' => find m s' end
  end.

(** [s] contains [m] as a contiguous substring. *)
Definition occurs (m s : string) : Prop := exists a b, s = a ++ m ++ b.

(** [after m s]: the text behind the first occurrence of [m] in [s]
    (Python's [s.partition(m)[2]] when [m] is found). *)
Fixpoint after (m s : string) : option string :=
  match strip m s with
  | Some v => Some v
  | None => match s with "" => None | String _ s' => after m s' end
  end.

End Str.

(** ** The fragment of Python's [re] used by the pattern *)

Module Re.

(** Flags of [re.search]; the script passes [re.DOTALL]. *)
Inductive flag := NOFLAG | DOTALL.

(** One-character atoms: a literal character, or [.]. *)
Inductive atom := Lit (c : ascii) | Any.

(** A piece is an atom taken once, or under the lazy star [*?]. *)
Inductive piece := Once (a : atom) | MinStar (a : atom).

Inductive token := TAtom (a : atom) | TStar | TQuest.

Definition in_range (lo hi c : ascii) : bool :=
  Nat.leb (nat_of_ascii lo) (nat_of_ascii c) && Nat.leb (nat_of_ascii c) (nat_of_ascii hi).

Definition is_alnum (c : ascii) : bool :=
  in_range "0" "9" c || in_range "a" "z" c || in_range "A" "Z" c.

(** Characters that are special when they are not escaped.  Of these the
    fragment gives a meaning to [.], [*] and [?] only. *)
Definition unsupported_special (c : ascii) : bool :=
  existsb (Ascii.eqb c) ["["; "{"; "("; ")"; "+"; "^"; "$"; "|"]%char.

(** Tokens of a pattern.  A backslash before a character that is not a letter
    or a digit makes that character a literal; a backslash before a letter or
    a digit is a class or a group reference, outside the fragment; a
    backslash at the end is an error. *)
Fixpoint tokens (p : string) : option (list token) :=
  match p with
  | "" => Some []
  | String c rest =>
      if Ascii.eqb c "\" then
        match rest with
        | "" => None
        | String e rest' =>
            if is_alnum e then None
            else option_map (cons (TAtom (Lit e))) (tokens rest')
        end
      else if Ascii.eqb c "." then option_map (cons (TAtom Any)) (tokens rest)
      else if Ascii.eqb c "*" then option_map (cons TStar) (tokens rest)
      else if Ascii.eqb c "?" then option_map (cons TQuest) (tokens rest)
      else if unsupported_special c then None
      else option_map (cons (TAtom (Lit c))) (tokens rest)
  end.

(** Atoms with their quantifier.  [a*?] is the lazy star; a greedy star, an
    optional atom and a quantifier with nothing to repeat are outside the
    fragment. *)
Fixpoint pieces (ts : list token) : option (list piece) :=
  match ts with
  | [] => Some []
  | TAtom a :: TStar :: TQuest :: ts' => option_map (cons (MinStar a)) (pieces ts')
  | TAtom a :: TStar :: _ => None
  | TAtom a :: TQuest :: _ => None
  | TAtom a :: ts' => option_map (cons (Once a)) (pieces ts')
  | TStar :: _ => None
  | TQuest :: _ => None
  end.

(** [re.compile]: [None] stands for [re.error] (or for a pattern outside the
    fragment). *)
Definition compile (p : string) : option (list piece) :=
  match tokens p with
  | Some ts => pieces ts
  | None => None
  end.

Definition newline : ascii := ascii_of_nat 10.

(** Does atom [a] accept character [c]?  Without [DOTALL], [.] accepts every
    character but the newline. *)
Definition atom_ok (fl : flag) (a : atom) (c : ascii) : bool :=
  match a with
  | Lit x => Ascii.eqb x c
  | Any => match fl with DOTALL => true | NOFLAG => negb (Ascii.eqb c newline) end
  end.

(** The backtracking matcher, anchored at the start of [s]: the length of
    the match found first.  The lazy star tries the rest of the pattern
    before it takes one more character. *)
Fixpoint match_here (fl : flag) (ps : list piece) : string -> option nat :=
  match ps with
  | [] => fun _ => Some 0
  | Once a :: ps' => fun s =>
      match s with
      | "" => None
      | String c s' =>
          if atom_ok fl a c then option_map S (match_here fl ps' s') else None
      end
  | MinStar a :: ps' =>
      fix lazy (s : string) : option nat :=
        match match_here fl ps' s with
        | Some n => Some n
        | None =>
            match s with
            | "" => None
            | String c s' => if atom_ok fl a c then option_map S (lazy s') else None
            end
        end
  end.

(** The scan of [re.search]: start positions from left to right, the end of
    the string included; the result is the span [(start, end)] of the first
    match. *)
Fixpoint scan (fl : flag) (ps : list piece) (pos : nat) (s : string)
  : option (nat * nat) :=
  match match_here fl ps s with
  | Some n => Some (pos, pos + n)
  | None =>
      match s with
      | "" => None
      | String _ s' => scan fl ps (S pos) s'
      end
  end.

(** [re.search(pattern, text, flags)]: [None] when the pattern does not
    compile, [Some None] when there is no match, [Some (Some span)] for a
    match object. *)
Definition search (pattern text : string) (fl : flag) : option (option (nat * nat)) :=
  match compile pattern with
  | Some ps => Some (scan fl ps 0 text)
  | None => None
  end.

End Re.

(** ** Files, standard output and exceptions *)

Module Os.

(** The exceptions that can end the script.  The first three are the
    [OSError] subclasses that [open] raises; [UnicodeDecodeError] (a
    [ValueError], not an [OSError]) is what a text-mode [read] raises on
    bytes that do not decode; [ReError] is [re.error]. *)
Inductive exn :=
| FileNotFoundError
| PermissionError
| IsADirectoryError
| UnicodeDecodeError
| ReError.


(** What a path names: a regular file with its read permission and its text
    (as text mode decodes it); a regular file that can be opened for reading
    but whose bytes are not text in the encoding of text mode; or a
    directory. *)
Inductive node := File (readable : bool) (text : string) | Undecodable | Dir.

(** File-system calls, in the order they are made. *)
Inductive event :=
| EvOpenRead (path : string)
| EvRead (path : string)
| EvClose (path : string)
| EvWrite (path : string).

Record world := World {
  fs : string -> option node;
  stdout : list string;
  calls : list event
}.

Definition IO (A : Type) : Type := world -> (exn + A) * world.

Definition ret {A} (a : A) : IO A := fun w => (inr a, w).

Definition raise {A} (e : exn) : IO A := fun w => (inl e, w).

Definition bind {A B} (m : IO A) (k : A -> IO B) : IO B :=
  fun w =>
    match m w with
    | (inl e, w') => (inl e, w')
    | (inr a, w') => k a w'
    end.

Definition call (ev : event) : IO unit :=
  fun w => (inr tt, World (fs w) (stdout w) (calls w ++ [ev])).

(** [open(path, 'r')]: the file object is represented by its path. *)
Definition open_r (path : string) : IO string :=
  bind (call (EvOpenRead path)) (fun _ w =>
    match fs w path with
    | None => (inl FileNotFoundError, w)
    | Some Dir => (inl IsADirectoryError, w)
    | Some (File false _) => (inl PermissionError, w)
    | Some (File true _) => (inr path, w)
    | Some Undecodable => (inr path, w)
    end).

(** [f.read()] in text mode: the whole text of the file, decoded; bytes that
    do not decode raise. *)
Definition read (f : string) : IO string :=
  bind (call (EvRead f)) (fun _ w =>
    match fs w f with
    | Some (File true text) => (inr text, w)
    | Some Undecodable => (inl UnicodeDecodeError, w)
    | Some (File false _) => (inl PermissionError, w)
    | Some Dir => (inl IsADirectoryError, w)
    | None => (inl FileNotFoundError, w)
    end).

Definition close (f : string) : IO unit := call (EvClose f).

(** [with open(path, 'r') as f: body]: the file is closed when the body
    ends, also when it raises. *)
Definition with_open_r {A} (path : string) (body : string -> IO A) : IO A :=
  bind (open_r path) (fun f w =>
    match body f w with
    | (r, w') => (r, snd (close f w'))
    end).

(** [print(line)]: one more line on standard output. *)
Definition print (line : string) : IO unit :=
  fun w => (inr tt, World (fs w) (stdout w ++ [line]) (calls w)).

(** How the process ends: an uncaught exception is a traceback and exit
    code 1. *)
Definition exit_code {A} (r : exn + A) : nat :=
  match r with inl _ => 1 | inr _ => 0 end.

End Os.

Notation "x <- m ;; k" := (Os.bind m (fun x => k))
  (at level 61, m at next level, right associativity).

(** ** The script *)

Module Script.

Import Os.

Definition file_path : string :=
  "app/src/main/java/com/yourname/pdftoolkit/ui/MainActivity.kt".

(** The raw string of the source; a backslash is an ordinary character of a
    string here as well. *)
Definition pattern : string :=
  "Intent\.ACTION_VIEW, Intent\.ACTION_SEND -> \{.*?runBlocking \{.*?copyToCacheSynchronous".

Definition FOUND : string :=
  "FOUND: Blocking call detected in ACTION_VIEW/SEND handler".

Definition NOT_FOUND : string :=
  "NOT FOUND: Blocking call not detected in ACTION_VIEW/SEND handler".

(** [re.search] as a statement of the script: a pattern that does not
    compile raises. *)
Definition re_search (p text : string) (fl : Re.flag) : IO (option (nat * nat)) :=
  match Re.search p text fl with
  | Some m => ret m
  | None => raise ReError
  end.

(** The whole script.  A match object is true, [None] is false. *)
Definition main : IO unit :=
  content <- with_open_r file_path read ;;
  m <- re_search pattern content Re.DOTALL ;;
  match m with
  | Some _ => print FOUND
  | None => print NOT_FOUND
  end.

(** A run from [w] adds exactly the line [line] to standard output. *)
Definition prints (w : world) (line : string) : Prop :=
  stdout (snd (main w)) = (stdout w ++ [line])%list.


(** A world in which the file at [file_path] reads as [content]. *)
Definition reads_as (w : world) (content : string) : Prop :=
  fs w file_path = Some (File true content).

(** A world whose only file is the one at [file_path], with text [content]. *)
Definition world_with (content : string) : world :=
  World (fun p => if String.eqb p file_path then Some (File true content) else None)
        [] [].

(** *** The markers, as the specification names them *)

Definition branch_marker : string := "Intent.ACTION_VIEW, Intent.ACTION_SEND -> {".
Definition blocking_marker : string := "runBlocking {".
Definition sync_marker : string := "copyToCacheSynchronous".

(** The three markers occur in this order, with anything in between. *)
Definition in_order (content : string) : Prop :=
  exists a b c d,
    content = a ++ branch_marker ++ b ++ blocking_marker ++ c ++ sync_marker ++ d.

(** The pattern after [re.compile]: the markers as literals, with [.*?]
    between them. *)
Fixpoint lits (m : string) : list Re.piece :=
  match m with
  | "" => []
  | String c m' => Re.Once (Re.Lit c) :: lits m'
  end.

Definition pattern_pieces : list Re.piece :=
  lits branch_marker ++ Re.MinStar Re.Any ::
  lits blocking_marker ++ Re.MinStar Re.Any :: lits sync_marker.

(** Is there a match object for [content]? *)
Definition matched (content : string) : bool :=
  match Re.scan Re.DOTALL pattern_pieces 0 content with
  | Some _ => true
  | None => false
  end.

(** The line chosen for a text that was read. *)
Definition verdict (content : string) : string :=
  if matched content then FOUND else NOT_FOUND.

(** What a run does, by what [file_path] names: how it ends, the lines it
    prints and the file-system calls it makes ([main_run] proves it). *)
Definition ending (n : option node) : exn + unit :=
  match n with
  | Some (File true _) => inr tt
  | Some Undecodable => inl UnicodeDecodeError
  | Some (File false _) => inl PermissionError
  | Some Dir => inl IsADirectoryError
  | None => inl FileNotFoundError
  end.

Definition lines_of (n : option node) : list string :=
  match n with
  | Some (File true content) => [verdict content]
  | _ => []
  end.

Definition calls_of (n : option node) : list event :=
  match n with
  | Some (File true _) | Some Undecodable =>
      [EvOpenRead file_path; EvRead file_path; EvClose file_path]
  | _ => [EvOpenRead file_path]
  end.

(** The file at [file_path] is missing or cannot be read. *)
Definition inaccessible (w : world) : Prop :=
  forall content, ~ reads_as w content.





(** A file-system call that reads [file_path] and changes nothing. *)
Definition read_only_call (ev : event) : Prop :=
  ev = EvOpenRead file_path \/ ev = EvRead file_path \/ ev = EvClose file_path.

(** *** Examples of file contents *)

Definition scenario_found : string :=
  "Intent.ACTION_VIEW, Intent.ACTION_SEND -> { doSomething(); runBlocking { copyToCacheSynchronous(uri) } }".

Definition scenario_not_found : string :=
  "Intent.ACTION_VIEW, Intent.ACTION_SEND -> { copyToCacheAsync(uri) }".

Definition nl : string := String Re.newline "".

(** Three functions, one marker in each. *)
Definition unrelated_example : string :=
  "fun route(i: Intent) { when (i.action) { Intent.ACTION_VIEW, Intent.ACTION_SEND -> { show(i) } } }" ++ nl ++
  "fun warmUp() { runBlocking { delay(10) } }" ++ nl ++
  "fun export(uri: Uri) { copyToCacheSynchronous(uri) }" ++ nl.

Definition no_space_example : string :=
  "Intent.ACTION_VIEW, Intent.ACTION_SEND -> { runBlocking{ copyToCacheSynchronous(uri) } }".

Definition lower_case_example : string :=
  "Intent.ACTION_VIEW, Intent.ACTION_SEND -> { runblocking { copyToCacheSynchronous(uri) } }".

(** *** Blocks of braces *)

(** [balanced_from depth s]: every brace of [s] is matched, starting inside
    [depth] open blocks. *)
Fixpoint balanced_from (depth : nat) (s : string) : bool :=
  match s with
  | "" => Nat.eqb depth 0
  | String c s' =>
      if Ascii.eqb c "{" then balanced_from (S depth) s'
      else if Ascii.eqb c "}" then
        match depth with
        | 0 => false
        | S d => balanced_from d s'
        end
      else balanced_from depth s'
  end.

(** The markers are in order, but the block that the branch marker opens is
    closed before the blocking construct starts, and the block of the
    blocking construct is closed before the cache-copy marker: [i1] and [i2]
    are the insides of the two blocks, and hold none of the later markers. *)
Definition unrelated_blocks (content : string) : Prop :=
  exists a i1 b i2 c d,
    content = a ++ branch_marker ++ i1 ++ "}" ++ b ++
              blocking_marker ++ i2 ++ "}" ++ c ++ sync_marker ++ d /\
    balanced_from 0 i1 = true /\ balanced_from 0 i2 = true /\
    Str.find blocking_marker i1 = false /\
    Str.find sync_marker i1 = false /\
    Str.find sync_marker i2 = false.

(** *** The search as three searches for a substring *)

(** The branch marker first; the blocking marker behind its first
    occurrence; the cache-copy marker behind the first occurrence of that. *)
Definition sequential (content : string) : bool :=
  match Str.after branch_marker content with
  | None => false
  | Some r1 =>
      match Str.after blocking_marker r1 with
      | None => false
      | Some r2 => Str.find sync_marker r2
      end
  end.

(** All three markers, the cache-copy call before the blocking construct. *)
Definition reversed_example : string :=
  "Intent.ACTION_VIEW, Intent.ACTION_SEND -> { copyToCacheSynchronous(uri); runBlocking { delay(1) } }".

(** Two branches with a blocking cache copy, one after the other. *)
Definition twice_example : string :=
  "when (a) { " ++ scenario_found ++ " }" ++ nl ++ "when (b) { " ++ scenario_found ++ " }".

End Script.

(** * Facts *)

(** ** Strings *)

Module StrFacts.
Import Str.

Lemma app_nil_r (s : string) : s ++ "" = s.
Proof. induction s as [|c s IH]; simpl; [reflexivity | now rewrite IH]. Qed.

Lemma app_assoc (s t u : string) : (s ++ t) ++ u = s ++ t ++ u.
Proof. induction s as [|c s IH]; simpl; [reflexivity | now rewrite IH]. Qed.

Lemma strip_Some (m s v : string) : strip m s = Some v <-> s = m ++ v.
Proof.
  revert s; induction m as [|a m IH]; intros s; simpl.
  - split; congruence.
  - destruct s as [|c s]; [split; discriminate|].
    destruct (Ascii.eqb_spec a c) as [->|Hne].
    + rewrite IH. split; congruence.
    + split; [discriminate | intros [= E _]; congruence].
Qed.

Lemma find_occurs (m s : string) : find m s = true <-> occurs m s.
Proof.
  unfold occurs. induction s as [|c s IH].
  - simpl. destruct (strip m "") as [v|] eqn:E.
    + apply strip_Some in E. split; [|reflexivity].
      intros _. exists "", v. exact E.
    + split; [discriminate|]. intros (a & b & H).
      destruct a; simpl in H; [|discriminate].
      apply (proj2 (strip_Some _ _ _)) in H. congruence.
  - simpl. destruct (strip m (String c s)) as [v|] eqn:E.
    + apply strip_Some in E. split; [|reflexivity].
      intros _. exists "", v. exact E.
    + rewrite IH. split.
      * intros (a & b & ->). now exists (String c a), b.
      * intros (a & b & H). destruct a as [|c' a]; simpl in H.
        -- apply (proj2 (strip_Some _ _ _)) in H. congruence.
        -- injection H as _ ->. now exists a, b.
Qed.

End StrFacts.

(** ** The matcher *)

Module ReFacts.
Import Re Script.

Lemma match_here_minstar (fl : flag) (a : atom) (ps : list piece) (s : string) :
  match_here fl (MinStar a :: ps) s =
  match match_here fl ps s with
  | Some n => Some n
  | None =>
      match s with
      | "" => None
      | String c s' =>
          if atom_ok fl a c
          then option_map S (match_here fl (MinStar a :: ps) s') else None
      end
  end.
Proof. destruct s; reflexivity. Qed.

(** A run of literals matches exactly when it is a prefix; the match then
    goes on behind it. *)
Lemma match_here_lits (fl : flag) (m : string) (ps : list piece) (s : string) :
  match_here fl (lits m ++ ps) s =
  match Str.strip m s with
  | Some v => option_map (Nat.add (String.length m)) (match_here fl ps v)
  | None => None
  end.
Proof.
  revert s; induction m as [|a m IH]; intros s.
  - simpl. now destruct (match_here fl ps s).
  - cbn [lits List.app match_here Str.strip String.length atom_ok].
    destruct s as [|c s]; [reflexivity|].
    destruct (Ascii.eqb a c); [|reflexivity].
    rewrite IH. destruct (Str.strip m s) as [v|]; [|reflexivity].
    now destruct (match_here fl ps v).
Qed.

Lemma lits_accept (fl : flag) (m : string) (ps : list piece) (s : string) :
  match_here fl (lits m ++ ps) s <> None <->
  exists v, s = m ++ v /\ match_here fl ps v <> None.
Proof.
  rewrite match_here_lits. destruct (Str.strip m s) as [v|] eqn:E.
  - apply StrFacts.strip_Some in E. split.
    + intros H. exists v. split; [exact E|].
      now destruct (match_here fl ps v).
    + intros (v' & E' & H). apply StrFacts.strip_Some in E'.
      subst s. rewrite (proj2 (StrFacts.strip_Some m _ v) eq_refl) in E'.
      injection E' as <-. now destruct (match_here fl ps v).
  - split; [congruence|]. intros (v & E' & _).
    apply StrFacts.strip_Some in E'. congruence.
Qed.

(** Under [DOTALL] the lazy [.*?] skips any prefix. *)
Lemma minstar_any_accept (ps : list piece) (s : string) :
  match_here DOTALL (MinStar Any :: ps) s <> None <->
  exists u v, s = u ++ v /\ match_here DOTALL ps v <> None.
Proof.
  induction s as [|c s IH]; rewrite match_here_minstar.
  - destruct (match_here DOTALL ps "") eqn:E.
    + split; [|congruence]. intros _. exists "", "". now rewrite E.
    + split; [congruence|]. intros (u & v & H & Hv).
      destruct u; [|discriminate]. simpl in H. subst v. congruence.
  - destruct (match_here DOTALL ps (String c s)) eqn:E.
    + split; [|congruence]. intros _. exists "", (String c s). now rewrite E.
    + cbn [atom_ok]. split.
      * intros H. destruct (match_here DOTALL (MinStar Any :: ps) s) eqn:E'; [|easy].
        destruct IH as [IH _]. destruct IH as (u & v & -> & Hv); [congruence|].
        now exists (String c u), v.
      * intros (u & v & H & Hv). destruct u as [|c' u]; simpl in H.
        -- subst v. congruence.
        -- injection H as _ ->.
           destruct IH as [_ IH]. specialize (IH (ex_intro _ u (ex_intro _ v (conj eq_refl Hv)))).
           now destruct (match_here DOTALL (MinStar Any :: ps) (u ++ v)).
Qed.

(** The scan finds a match exactly when some suffix has one. *)
Lemma scan_accept (fl : flag) (ps : list piece) (pos : nat) (s : string) :
  scan fl ps pos s <> None <->
  exists u v, s = u ++ v /\ match_here fl ps v <> None.
Proof.
  revert pos; induction s as [|c s IH]; intros pos; simpl.
  - destruct (match_here fl ps "") eqn:E.
    + split; [|congruence]. intros _. exists "", "". now rewrite E.
    + split; [congruence|]. intros (u & v & H & Hv).
      destruct u; [|discriminate]. simpl in H. subst v. congruence.
  - destruct (match_here fl ps (String c s)) eqn:E.
    + split; [|congruence]. intros _. exists "", (String c s). now rewrite E.
    + rewrite IH. split.
      * intros (u & v & -> & Hv). now exists (String c u), v.
      * intros (u & v & H & Hv). destruct u as [|c' u]; simpl in H.
        -- subst v. congruence.
        -- injection H as _ ->. now exists u, v.
Qed.

Lemma compile_pattern : compile pattern = Some pattern_pieces.
Proof. reflexivity. Qed.

Lemma search_pattern (content : string) :
  search pattern content DOTALL = Some (scan DOTALL pattern_pieces 0 content).
Proof. unfold search. now rewrite compile_pattern. Qed.

(** The pattern finds a match exactly in the texts that hold the three
    markers in order. *)
Lemma scan_in_order (content : string) :
  scan DOTALL pattern_pieces 0 content <> None <-> in_order content.
Proof.
  unfold pattern_pieces, in_order. rewrite scan_accept. split.
  - intros (a & v & -> & H).
    apply lits_accept in H. destruct H as (v1 & -> & H).
    apply minstar_any_accept in H. destruct H as (b & v2 & -> & H).
    apply lits_accept in H. destruct H as (v3 & -> & H).
    apply minstar_any_accept in H. destruct H as (c & v4 & -> & H).
    rewrite <- (List.app_nil_r (lits sync_marker)) in H.
    apply lits_accept in H. destruct H as (d & -> & _).
    now exists a, b, c, d.
  - intros (a & b & c & d & ->). eexists a, _. split; [reflexivity|].
    apply lits_accept. eexists. split; [reflexivity|].
    apply minstar_any_accept. eexists b, _. split; [reflexivity|].
    apply lits_accept. eexists. split; [reflexivity|].
    apply minstar_any_accept. eexists c, _. split; [reflexivity|].
    rewrite <- (List.app_nil_r (lits sync_marker)).
    apply lits_accept. exists d. split; [reflexivity|]. discriminate.
Qed.

(** Without [DOTALL] the newlines of [unrelated_example] stop [.*?]. *)
Example search_without_dotall :
  search pattern unrelated_example NOFLAG = Some None /\
  search pattern unrelated_example DOTALL = Some (Some (41, 187)).
Proof. split; reflexivity. Qed.

Lemma matched_in_order (content : string) :
  matched content = true <-> in_order content.
Proof.
  rewrite <- scan_in_order. unfold matched.
  destruct (scan DOTALL pattern_pieces 0 content); split; congruence.
Qed.

End ReFacts.

(** ** The script *)

Module ScriptFacts.
Import Os Script.

Lemma found_not_found : FOUND <> NOT_FOUND.
Proof. discriminate. Qed.

(** A run, whatever [file_path] names. *)
Lemma main_run (w : world) :
  main w =
  (ending (fs w file_path),
   World (fs w) (stdout w ++ lines_of (fs w file_path))
         (calls w ++ calls_of (fs w file_path))).
Proof.
  unfold main, with_open_r, open_r, read, close, call, bind. cbn [fs stdout calls].
  destruct (fs w file_path) as [[[|] text| |]|] eqn:E; cbn [fs stdout calls snd ending lines_of calls_of].
  - rewrite E. unfold re_search. rewrite ReFacts.search_pattern.
    unfold ret, verdict, matched.
    destruct (Re.scan Re.DOTALL pattern_pieces 0 text);
      unfold print; cbn [fs stdout calls]; now rewrite <- !List.app_assoc.
  - now rewrite List.app_nil_r.
  - rewrite E. cbn [fs stdout calls snd]. now rewrite List.app_nil_r, <- !List.app_assoc.
  - now rewrite List.app_nil_r.
  - now rewrite List.app_nil_r.
Qed.

Lemma main_reads (w : world) (content : string) :
  reads_as w content ->
  main w =
  (inr tt,
   World (fs w) (stdout w ++ [verdict content])
         (calls w ++ [EvOpenRead file_path; EvRead file_path; EvClose file_path])).
Proof. intros H. rewrite main_run. unfold reads_as in H. now rewrite H. Qed.

Lemma reads_prints (w : world) (content : string) :
  reads_as w content -> prints w (verdict content).
Proof. intros H. unfold prints. now rewrite (main_reads w content H). Qed.

Lemma prints_inj (w : world) (l1 l2 : string) :
  prints w l1 -> prints w l2 -> l1 = l2.
Proof.
  unfold prints. intros H1 H2. rewrite H1 in H2.
  apply List.app_inv_head in H2. congruence.
Qed.

Lemma in_order_occurs (content : string) :
  in_order content ->
  Str.occurs branch_marker content /\ Str.occurs blocking_marker content /\
  Str.occurs sync_marker content.
Proof.
  intros (a & b & c & d & ->). unfold Str.occurs. repeat split.
  - now exists a, (b ++ blocking_marker ++ c ++ sync_marker ++ d).
  - exists (a ++ branch_marker ++ b), (c ++ sync_marker ++ d).
    now rewrite !StrFacts.app_assoc.
  - exists (a ++ branch_marker ++ b ++ blocking_marker ++ c), d.
    now rewrite !StrFacts.app_assoc.
Qed.

Lemma in_order_prints (w : world) (content : string) :
  reads_as w content -> in_order content -> prints w FOUND.
Proof.
  intros Hr Ho. apply ReFacts.matched_in_order in Ho.
  pose proof (reads_prints w content Hr) as Hp. unfold verdict in Hp.
  now rewrite Ho in Hp.
Qed.

Lemma not_in_order_prints (w : world) (content : string) :
  reads_as w content -> ~ in_order content -> prints w NOT_FOUND.
Proof.
  intros Hr Ho. rewrite <- ReFacts.matched_in_order in Ho.
  pose proof (reads_prints w content Hr) as Hp. unfold verdict in Hp.
  destruct (matched content); [now destruct Ho | exact Hp].
Qed.

End ScriptFacts.

(** * The properties of the specification *)

Import Os Script.

(** C1.  For every text read from the file, the script prints the FOUND line
    if and only if the text holds the branch marker, later the blocking
    marker and later the cache-copy marker, with any characters (newlines
    too) in the gaps; otherwise, and only otherwise, it prints the NOT FOUND
    line. *)
Theorem found_iff_in_order (w : world) (content : string) :
  reads_as w content ->
  (prints w FOUND <-> in_order content) /\
  (prints w NOT_FOUND <-> ~ in_order content).
Proof.
  intros Hr. pose proof (ScriptFacts.reads_prints w content Hr) as Hp.
  unfold verdict in Hp. rewrite <- ReFacts.matched_in_order.
  destruct (matched content); split; split; intros H; try easy.
  - exfalso. apply ScriptFacts.found_not_found.
    exact (ScriptFacts.prints_inj w _ _ Hp H).
  - exfalso. apply ScriptFacts.found_not_found.
    exact (ScriptFacts.prints_inj w _ _ H Hp).
Qed.

Lemma found_iff_in_order_witness :
  reads_as (world_with scenario_found) scenario_found /\
  (prints (world_with scenario_found) FOUND <-> in_order scenario_found) /\
  (prints (world_with scenario_found) NOT_FOUND <-> ~ in_order scenario_found).
Proof.
  split.
  - reflexivity.
  - apply (found_iff_in_order (world_with scenario_found) scenario_found).
    reflexivity.
Defined.




(** C3.  For the text of the first scenario, with [doSomething();] before
    the blocking construct, the script prints the FOUND line. *)
Theorem scenario_found_prints_found (w : world) :
  reads_as w scenario_found -> prints w FOUND.
Proof. intros H. exact (ScriptFacts.reads_prints w scenario_found H). Qed.

Lemma scenario_found_prints_found_witness :
  reads_as (world_with scenario_found) scenario_found /\
  prints (world_with scenario_found) FOUND.
Proof.
  split; [reflexivity|].
  apply (scenario_found_prints_found (world_with scenario_found)). reflexivity.
Defined.

(** C4.  For the text of the second scenario, which calls
    [copyToCacheAsync], the script prints the NOT FOUND line. *)
Theorem scenario_async_prints_not_found (w : world) :
  reads_as w scenario_not_found -> prints w NOT_FOUND.
Proof. intros H. exact (ScriptFacts.reads_prints w scenario_not_found H). Qed.

Lemma scenario_async_prints_not_found_witness :
  reads_as (world_with scenario_not_found) scenario_not_found /\
  prints (world_with scenario_not_found) NOT_FOUND.
Proof.
  split; [reflexivity|].
  apply (scenario_async_prints_not_found (world_with scenario_not_found)).
  reflexivity.
Defined.

(** C5.  For an empty file the script prints the NOT FOUND line. *)
Theorem empty_file_prints_not_found (w : world) :
  reads_as w "" -> prints w NOT_FOUND.
Proof. intros H. exact (ScriptFacts.reads_prints w "" H). Qed.

Lemma empty_file_prints_not_found_witness :
  reads_as (world_with "") "" /\ prints (world_with "") NOT_FOUND.
Proof.
  split; [reflexivity|].
  apply (empty_file_prints_not_found (world_with "")). reflexivity.
Defined.

(** C6.  There is a text in which the three markers stand in order in
    unrelated blocks (three functions: the branch, then a function with the
    blocking construct, then a function with the cache-copy call), and for
    every such text the script prints the FOUND line. *)
Theorem unrelated_blocks_found :
  unrelated_blocks unrelated_example /\
  forall (w : world) (content : string),
    unrelated_blocks content -> reads_as w content -> prints w FOUND.
Proof.
  split.
  - exists "fun route(i: Intent) { when (i.action) { ", " show(i) ",
      (" } }" ++ nl ++ "fun warmUp() { "), " delay(10) ",
      (" }" ++ nl ++ "fun export(uri: Uri) { "), ("(uri) }" ++ nl).
    repeat split; reflexivity.
  - intros w content (a & i1 & b & i2 & c & d & -> & _) Hr.
    apply (ScriptFacts.in_order_prints w _ Hr).
    exists a, (i1 ++ "}" ++ b), (i2 ++ "}" ++ c), d.
    now rewrite !StrFacts.app_assoc.
Qed.

Lemma unrelated_blocks_found_witness :
  unrelated_blocks unrelated_example /\
  reads_as (world_with unrelated_example) unrelated_example /\
  prints (world_with unrelated_example) FOUND.
Proof.
  split; [exact (proj1 unrelated_blocks_found)|].
  split; [reflexivity|].
  apply (proj2 unrelated_blocks_found (world_with unrelated_example) unrelated_example).
  - exact (proj1 unrelated_blocks_found).
  - reflexivity.
Defined.

(** C7.  Once the file has been read, nothing can fail: the pattern compiles
    and the search returns for every text, the script ends normally (exit
    code 0) and adds to standard output exactly one line, which is one of
    the two literal lines and not both. *)
Theorem match_step_cannot_fail (w : world) (content : string) :
  reads_as w content ->
  (exists m, Re.search pattern content Re.DOTALL = Some m) /\
  fst (main w) = inr tt /\
  exit_code (fst (main w)) = 0 /\
  (exists line,
     stdout (snd (main w)) = (stdout w ++ [line])%list /\
     (line = FOUND \/ line = NOT_FOUND)) /\
  ~ (prints w FOUND /\ prints w NOT_FOUND).
Proof.
  intros Hr. rewrite (ScriptFacts.main_reads w content Hr). cbn [fst snd stdout exit_code].
  split; [|split; [|split; [|split]]].
  - eexists. apply ReFacts.search_pattern.
  - reflexivity.
  - reflexivity.
  - exists (verdict content). split; [reflexivity|].
    unfold verdict. destruct (matched content); [now left | now right].
  - intros [H1 H2]. apply ScriptFacts.found_not_found.
    exact (ScriptFacts.prints_inj w _ _ H1 H2).
Qed.

Lemma match_step_cannot_fail_witness :
  reads_as (world_with scenario_not_found) scenario_not_found /\
  (exists m, Re.search pattern scenario_not_found Re.DOTALL = Some m) /\
  fst (main (world_with scenario_not_found)) = inr tt /\
  exit_code (fst (main (world_with scenario_not_found))) = 0 /\
  (exists line,
     stdout (snd (main (world_with scenario_not_found)))
     = (stdout (world_with scenario_not_found) ++ [line])%list /\
     (line = FOUND \/ line = NOT_FOUND)) /\
  ~ (prints (world_with scenario_not_found) FOUND /\
     prints (world_with scenario_not_found) NOT_FOUND).
Proof.
  split; [reflexivity|].
  apply (match_step_cannot_fail (world_with scenario_not_found) scenario_not_found).
  reflexivity.
Defined.

(** C8.  A second run, started in the world the first run left, prints the
    same line and ends the same way as the first: the first run leaves every
    file as it was, and what a run prints depends on the world only through
    what [file_path] names, so a run in any world [w'] with the same file
    prints the same as well. *)
Theorem rerun_prints_same (w w' : world) :
  fs w' file_path = fs w file_path ->
  exists lines,
    stdout (snd (main w)) = (stdout w ++ lines)%list /\
    stdout (snd (main (snd (main w)))) = (stdout (snd (main w)) ++ lines)%list /\
    stdout (snd (main w')) = (stdout w' ++ lines)%list /\
    fst (main (snd (main w))) = fst (main w) /\
    fst (main w') = fst (main w) /\
    fs (snd (main w)) = fs w.
Proof.
  intros E. exists (lines_of (fs w file_path)).
  rewrite (ScriptFacts.main_run w). cbn [fst snd fs stdout].
  rewrite !ScriptFacts.main_run. cbn [fst snd fs stdout]. rewrite E.
  repeat split.
Qed.

Lemma rerun_prints_same_witness :
  fs (World (fs (world_with scenario_found)) ["earlier output"] []) file_path
  = fs (world_with scenario_found) file_path /\
  exists lines,
    stdout (snd (main (world_with scenario_found))) = ([] ++ lines)%list /\
    stdout (snd (main (snd (main (world_with scenario_found)))))
    = (stdout (snd (main (world_with scenario_found))) ++ lines)%list /\
    stdout (snd (main (World (fs (world_with scenario_found)) ["earlier output"] [])))
    = (["earlier output"] ++ lines)%list /\
    fst (main (snd (main (world_with scenario_found))))
    = fst (main (world_with scenario_found)) /\
    fst (main (World (fs (world_with scenario_found)) ["earlier output"] []))
    = fst (main (world_with scenario_found)) /\
    fs (snd (main (world_with scenario_found))) = fs (world_with scenario_found).
Proof.
  split; [reflexivity|].
  apply (rerun_prints_same (world_with scenario_found)
           (World (fs (world_with scenario_found)) ["earlier output"] [])).
  reflexivity.
Defined.

(** C9.  A run leaves every file as it was; each file-system call it makes
    is an open for reading, a read or a close of [file_path]; and standard
    output grows by one of the two lines, or by nothing exactly when the
    file cannot be read. *)
Theorem read_only_one_line (w : world) :
  fs (snd (main w)) = fs w /\
  (exists evs,
     calls (snd (main w)) = (calls w ++ evs)%list /\ Forall read_only_call evs) /\
  (exists lines,
     stdout (snd (main w)) = (stdout w ++ lines)%list /\
     (lines = [] \/ lines = [FOUND] \/ lines = [NOT_FOUND]) /\
     (lines = [] <-> inaccessible w)).
Proof.
  rewrite ScriptFacts.main_run. cbn [snd fs stdout calls].
  split; [reflexivity|]. split.
  - exists (calls_of (fs w file_path)). split; [reflexivity|].
    unfold read_only_call.
    destruct (fs w file_path) as [[[|] text| |]|]; cbn [calls_of];
      repeat (apply Forall_cons; [auto|]); apply Forall_nil.
  - exists (lines_of (fs w file_path)). split; [reflexivity|].
    unfold inaccessible, reads_as.
    destruct (fs w file_path) as [[[|] text| |]|]; cbn [lines_of].
    + split.
      * right. unfold verdict. destruct (matched text); [now left | now right].
      * split; [discriminate|]. intros H. now destruct (H text).
    + split; [now left|]. split; [discriminate | reflexivity].
    + split; [now left|]. split; [discriminate | reflexivity].
    + split; [now left|]. split; [discriminate | reflexivity].
    + split; [now left|]. split; [discriminate | reflexivity].
Qed.

(** C10.  The markers are exact literals: a text that lacks one of the three
    markers as an exact substring gets the NOT FOUND line, whatever
    near-misses it holds ([runBlocking{] without the space, [runblocking {]
    in lower case). *)
Theorem missing_marker_not_found (w : world) (content : string) :
  reads_as w content ->
  ~ Str.occurs branch_marker content \/
  ~ Str.occurs blocking_marker content \/
  ~ Str.occurs sync_marker content ->
  prints w NOT_FOUND.
Proof.
  intros Hr Hm. apply (ScriptFacts.not_in_order_prints w content Hr).
  intros Ho. apply ScriptFacts.in_order_occurs in Ho.
  destruct Ho as (H1 & H2 & H3). destruct Hm as [Hm | [Hm | Hm]]; contradiction.
Qed.

Lemma missing_marker_not_found_witness :
  (reads_as (world_with no_space_example) no_space_example /\
   Str.occurs branch_marker no_space_example /\
   Str.occurs "runBlocking{" no_space_example /\
   Str.occurs sync_marker no_space_example /\
   ~ Str.occurs blocking_marker no_space_example /\
   prints (world_with no_space_example) NOT_FOUND) /\
  (reads_as (world_with lower_case_example) lower_case_example /\
   Str.occurs "runblocking {" lower_case_example /\
   ~ Str.occurs blocking_marker lower_case_example /\
   prints (world_with lower_case_example) NOT_FOUND).
Proof.
  assert (N1 : ~ Str.occurs blocking_marker no_space_example).
  { intros H. apply StrFacts.find_occurs in H. discriminate H. }
  assert (N2 : ~ Str.occurs blocking_marker lower_case_example).
  { intros H. apply StrFacts.find_occurs in H. discriminate H. }
  split.
  - split; [reflexivity|].
    split; [apply StrFacts.find_occurs; reflexivity|].
    split; [apply StrFacts.find_occurs; reflexivity|].
    split; [apply StrFacts.find_occurs; reflexivity|].
    split; [exact N1|].
    apply (missing_marker_not_found (world_with no_space_example) no_space_example).
    + reflexivity.
    + right. left. exact N1.
  - split; [reflexivity|].
    split; [apply StrFacts.find_occurs; reflexivity|].
    split; [exact N2|].
    apply (missing_marker_not_found (world_with lower_case_example) lower_case_example).
    + reflexivity.
    + right. left. exact N2.
Defined.

(** * More on the search and on the run *)

Module SpanFacts.
Import Re.

Lemma length_app (s t : string) :
  String.length (s ++ t) = String.length s + String.length t.
Proof. induction s as [|c s IH]; simpl; [reflexivity | now rewrite IH]. Qed.

(** Two ways to cut one text: the shorter head is a prefix of the longer. *)
Lemma app_split (u x a z : string) :
  u ++ x = a ++ z -> String.length u <= String.length a ->
  exists y, a = u ++ y /\ x = y ++ z.
Proof.
  revert a; induction u as [|c u IH]; intros a H L.
  - exists a. now split.
  - destruct a as [|c' a]; simpl in L; [lia|].
    simpl in H. injection H as -> H.
    destruct (IH a H ltac:(lia)) as (y & -> & ->). now exists y.
Qed.

Lemma after_sound (m s y : string) :
  Str.after m s = Some y -> exists x, s = x ++ m ++ y.
Proof.
  induction s as [|c s IH]; simpl.
  - destruct (Str.strip m "") as [v|] eqn:E; [|discriminate].
    intros [= <-]. apply StrFacts.strip_Some in E. now exists "".
  - destruct (Str.strip m (String c s)) as [v|] eqn:E.
    + intros [= <-]. apply StrFacts.strip_Some in E. now exists "".
    + intros H. destruct (IH H) as (x & ->). now exists (String c x).
Qed.

Lemma after_eq (m s : string) :
  Str.after m s =
  match Str.strip m s with
  | Some v => Some v
  | None => match s with "" => None | String _ s' => Str.after m s' end
  end.
Proof. destruct s; reflexivity. Qed.

(** Every occurrence of [m] lies at or behind the first one. *)
Lemma after_complete (m s x y : string) :
  s = x ++ m ++ y -> exists z, Str.after m s = Some (z ++ y).
Proof.
  revert x; induction s as [|c s IH]; intros x H; rewrite after_eq.
  - destruct x; [|discriminate]. simpl in H.
    rewrite (proj2 (StrFacts.strip_Some m "" y) H). now exists "".
  - destruct (Str.strip m (String c s)) as [v|] eqn:E.
    + apply StrFacts.strip_Some in E. rewrite E in H.
      rewrite <- StrFacts.app_assoc in H.
      destruct (app_split m v (x ++ m) y H) as (z & _ & ->).
      { rewrite length_app. lia. }
      now exists z.
    + destruct x as [|c' x]; simpl in H.
      * rewrite (proj2 (StrFacts.strip_Some m _ y) H) in E. discriminate.
      * injection H as _ H. exact (IH x H).
Qed.

Lemma substring_middle (a t d : string) :
  substring (String.length a) (String.length t) (a ++ t ++ d) = t.
Proof.
  induction a as [|c a IH]; simpl; [|exact IH].
  induction t as [|c t IH]; simpl.
  - now destruct d.
  - now rewrite IH.
Qed.

(** The lazy [.*?] stops at the first place where the rest matches. *)
Lemma minstar_any_first (ps : list piece) (s : string) (n : nat) :
  match_here DOTALL (MinStar Any :: ps) s = Some n ->
  exists u v n',
    s = u ++ v /\ match_here DOTALL ps v = Some n' /\
    n = String.length u + n' /\
    forall u' v', s = u' ++ v' -> String.length u' < String.length u ->
                  match_here DOTALL ps v' = None.
Proof.
  revert n; induction s as [|c s IH]; intros n; rewrite ReFacts.match_here_minstar.
  - destruct (match_here DOTALL ps "") as [n0|] eqn:E; [|discriminate].
    intros [= <-]. exists "", "", n0. repeat split; try easy;
      intros u' v' _ L; simpl in L; lia.
  - destruct (match_here DOTALL ps (String c s)) as [n0|] eqn:E.
    + intros [= <-]. exists "", (String c s), n0. repeat split; try easy;
        intros u' v' _ L; simpl in L; lia.
    + cbn [atom_ok].
      destruct (match_here DOTALL (MinStar Any :: ps) s) as [n1|] eqn:E1; [|discriminate].
      intros [= <-]. destruct (IH n1 eq_refl) as (u & v & n' & -> & Hv & -> & Hfirst).
      exists (String c u), v, n'.
      split; [reflexivity|]. split; [exact Hv|]. split; [reflexivity|].
      intros u' v' H L. destruct u' as [|c' u']; simpl in H.
      * now subst v'.
      * injection H as _ H. apply (Hfirst u' v' H). simpl in L. lia.
Qed.

(** The scan stops at the first start position that has a match. *)
Lemma scan_first (fl : flag) (ps : list piece) (pos : nat) (s : string) (i j : nat) :
  scan fl ps pos s = Some (i, j) ->
  exists u v n,
    s = u ++ v /\ match_here fl ps v = Some n /\
    i = pos + String.length u /\ j = i + n /\
    forall u' v', s = u' ++ v' -> String.length u' < String.length u ->
                  match_here fl ps v' = None.
Proof.
  revert pos; induction s as [|c s IH]; intros pos; simpl.
  - destruct (match_here fl ps "") as [n0|] eqn:E; [|discriminate].
    intros [= <- <-]. exists "", "", n0. simpl. repeat split; try easy; try lia;
      intros u' v' _ L; simpl in L; lia.
  - destruct (match_here fl ps (String c s)) as [n0|] eqn:E.
    + intros [= <- <-]. exists "", (String c s), n0. simpl.
      repeat split; try easy; try lia;
        intros u' v' _ L; simpl in L; lia.
    + intros H. destruct (IH (S pos) H) as (u & v & n & -> & Hv & -> & -> & Hfirst).
      exists (String c u), v, n.
      split; [reflexivity|]. split; [exact Hv|].
      split; [simpl; lia|]. split; [reflexivity|].
      intros u' v' H' L. destruct u' as [|c' u']; simpl in H'.
      * now subst v'.
      * injection H' as _ H'. apply (Hfirst u' v' H'). simpl in L. lia.
Qed.

Lemma lits_some (fl : flag) (m : string) (ps : list piece) (s : string) (n : nat) :
  match_here fl (Script.lits m ++ ps) s = Some n ->
  exists v n', s = m ++ v /\ match_here fl ps v = Some n' /\
               n = String.length m + n'.
Proof.
  rewrite ReFacts.match_here_lits. destruct (Str.strip m s) as [v|] eqn:E; [|discriminate].
  apply StrFacts.strip_Some in E.
  destruct (match_here fl ps v) as [n'|] eqn:E'; [|discriminate].
  intros [= <-]. now exists v, n'.
Qed.

Import Script.

Lemma accept_sync (v : string) :
  match_here DOTALL (lits sync_marker) v <> None <-> exists d, v = sync_marker ++ d.
Proof.
  rewrite <- (List.app_nil_r (lits sync_marker)). rewrite ReFacts.lits_accept.
  split.
  - intros (d & H & _). now exists d.
  - intros (d & H). exists d. split; [exact H | discriminate].
Qed.

Lemma accept_blocking (v : string) :
  match_here DOTALL (lits blocking_marker ++ MinStar Any :: lits sync_marker) v <> None <->
  exists c d, v = blocking_marker ++ c ++ sync_marker ++ d.
Proof.
  rewrite ReFacts.lits_accept. split.
  - intros (v1 & -> & H). apply ReFacts.minstar_any_accept in H.
    destruct H as (c & v2 & -> & H). apply accept_sync in H.
    destruct H as (d & ->). now exists c, d.
  - intros (c & d & ->). eexists. split; [reflexivity|].
    apply ReFacts.minstar_any_accept. exists c, (sync_marker ++ d).
    split; [reflexivity|]. apply accept_sync. now exists d.
Qed.

Lemma accept_branch (v : string) :
  match_here DOTALL pattern_pieces v <> None <->
  exists b c d, v = branch_marker ++ b ++ blocking_marker ++ c ++ sync_marker ++ d.
Proof.
  unfold pattern_pieces. rewrite ReFacts.lits_accept. split.
  - intros (v1 & -> & H). apply ReFacts.minstar_any_accept in H.
    destruct H as (b & v2 & -> & H). apply accept_blocking in H.
    destruct H as (c & d & ->). now exists b, c, d.
  - intros (b & c & d & ->). eexists. split; [reflexivity|].
    apply ReFacts.minstar_any_accept. exists b, (blocking_marker ++ c ++ sync_marker ++ d).
    split; [reflexivity|]. apply accept_blocking. now exists c, d.
Qed.

(** The span of the match, cut by cut: each cut is the first one behind
    which the rest of the pattern matches. *)
Lemma span_cuts (content : string) (i j : nat) :
  scan DOTALL pattern_pieces 0 content = Some (i, j) ->
  exists a b c d,
    content = a ++ branch_marker ++ b ++ blocking_marker ++ c ++ sync_marker ++ d /\
    i = String.length a /\
    j = String.length a + String.length branch_marker + String.length b
        + String.length blocking_marker + String.length c + String.length sync_marker /\
    (forall u v, content = u ++ v -> String.length u < String.length a ->
                 match_here DOTALL pattern_pieces v = None) /\
    (forall u v, b ++ blocking_marker ++ c ++ sync_marker ++ d = u ++ v ->
                 String.length u < String.length b ->
                 match_here DOTALL (lits blocking_marker ++ MinStar Any :: lits sync_marker) v = None) /\
    (forall u v, c ++ sync_marker ++ d = u ++ v -> String.length u < String.length c ->
                 match_here DOTALL (lits sync_marker) v = None).
Proof.
  intros H. apply scan_first in H.
  destruct H as (a & v & n & -> & Hv & -> & -> & F1).
  unfold pattern_pieces in Hv. apply lits_some in Hv.
  destruct Hv as (v1 & n1 & -> & Hv & ->).
  apply minstar_any_first in Hv. destruct Hv as (b & v2 & n2 & -> & Hv & -> & F2).
  apply lits_some in Hv. destruct Hv as (v3 & n3 & -> & Hv & ->).
  apply minstar_any_first in Hv. destruct Hv as (c & v4 & n4 & -> & Hv & -> & F3).
  rewrite <- (List.app_nil_r (lits sync_marker)) in Hv. apply lits_some in Hv.
  destruct Hv as (d & n5 & -> & Hv & ->). injection Hv as <-.
  exists a, b, c, d. split; [reflexivity|]. split; [simpl; lia|]. split; [simpl; lia|].
  split; [exact F1|]. split; [exact F2|]. exact F3.
Qed.

(** In order with a text around it, still in order. *)
Lemma in_order_surrounded (pre content post : string) :
  in_order content -> in_order (pre ++ content ++ post).
Proof.
  intros (a & b & c & d & ->). exists (pre ++ a), b, c, (d ++ post).
  now rewrite !StrFacts.app_assoc.
Qed.

Lemma in_order_sequential (content : string) :
  in_order content <-> sequential content = true.
Proof.
  unfold sequential. split.
  - intros (a & b & c & d & ->).
    destruct (after_complete branch_marker _ a
                (b ++ blocking_marker ++ c ++ sync_marker ++ d) eq_refl) as (z & ->).
    destruct (after_complete blocking_marker
                (z ++ b ++ blocking_marker ++ c ++ sync_marker ++ d)
                (z ++ b) (c ++ sync_marker ++ d)) as (z' & ->).
    { now rewrite StrFacts.app_assoc. }
    apply StrFacts.find_occurs. exists (z' ++ c), d.
    now rewrite StrFacts.app_assoc.
  - destruct (Str.after branch_marker content) as [r1|] eqn:E1; [|discriminate].
    destruct (Str.after blocking_marker r1) as [r2|] eqn:E2; [|discriminate].
    intros H. apply StrFacts.find_occurs in H. destruct H as (c & d & ->).
    apply after_sound in E2. destruct E2 as (b & ->).
    apply after_sound in E1. destruct E1 as (a & ->).
    now exists a, b, c, d.
Qed.

(** From the printed line back to the text. *)
Lemma prints_found_in_order (w : Os.world) (content : string) :
  reads_as w content -> prints w FOUND -> in_order content.
Proof.
  intros Hr Hp. apply ReFacts.matched_in_order.
  pose proof (ScriptFacts.reads_prints w content Hr) as Hv. unfold verdict in Hv.
  destruct (matched content); [reflexivity|].
  destruct ScriptFacts.found_not_found. exact (ScriptFacts.prints_inj w _ _ Hp Hv).
Qed.

End SpanFacts.

(** X1.  The span of a match object cuts the text at the markers: the text
    from [i] to [j] starts with the branch marker, ends with the cache-copy
    marker and holds the blocking marker in between. *)
Theorem match_span_delimits (content : string) (i j : nat) :
  Re.search pattern content Re.DOTALL = Some (Some (i, j)) ->
  exists a b c d,
    content = a ++ branch_marker ++ b ++ blocking_marker ++ c ++ sync_marker ++ d /\
    i = String.length a /\
    j = String.length (a ++ branch_marker ++ b ++ blocking_marker ++ c ++ sync_marker) /\
    substring i (j - i) content
    = branch_marker ++ b ++ blocking_marker ++ c ++ sync_marker.
Proof.
  rewrite ReFacts.search_pattern. intros [= H].
  apply SpanFacts.span_cuts in H.
  destruct H as (a & b & c & d & -> & -> & -> & _).
  exists a, b, c, d. split; [reflexivity|]. split; [reflexivity|].
  assert (L : String.length (a ++ branch_marker ++ b ++ blocking_marker ++ c ++ sync_marker)
              = String.length a + String.length branch_marker + String.length b
                + String.length blocking_marker + String.length c
                + String.length sync_marker).
  { rewrite !SpanFacts.length_app. lia. }
  split; [now rewrite L|].
  replace (String.length a + String.length branch_marker + String.length b
           + String.length blocking_marker + String.length c
           + String.length sync_marker - String.length a)
    with (String.length (branch_marker ++ b ++ blocking_marker ++ c ++ sync_marker))
    by (rewrite !SpanFacts.length_app; lia).
  replace (a ++ branch_marker ++ b ++ blocking_marker ++ c ++ sync_marker ++ d)
    with (a ++ (branch_marker ++ b ++ blocking_marker ++ c ++ sync_marker) ++ d)
    by (now rewrite !StrFacts.app_assoc).
  apply SpanFacts.substring_middle.
Qed.

Lemma match_span_delimits_witness :
  Re.search pattern twice_example Re.DOTALL = Some (Some (11, 106)) /\
  exists a b c d,
    twice_example = a ++ branch_marker ++ b ++ blocking_marker ++ c ++ sync_marker ++ d /\
    11 = String.length a /\
    106 = String.length (a ++ branch_marker ++ b ++ blocking_marker ++ c ++ sync_marker) /\
    substring 11 (106 - 11) twice_example
    = branch_marker ++ b ++ blocking_marker ++ c ++ sync_marker.
Proof.
  split; [reflexivity|].
  apply (match_span_delimits twice_example 11 106). reflexivity.
Defined.

(** X2.  The match is the first and the shortest: whichever way the text
    holds the three markers in order, the span starts no later than that
    branch marker and ends no later than that cache-copy marker. *)
Theorem match_span_minimal (content : string) (i j : nat) (a b c d : string) :
  Re.search pattern content Re.DOTALL = Some (Some (i, j)) ->
  content = a ++ branch_marker ++ b ++ blocking_marker ++ c ++ sync_marker ++ d ->
  i <= String.length a /\
  j <= String.length (a ++ branch_marker ++ b ++ blocking_marker ++ c ++ sync_marker).
Proof.
  rewrite ReFacts.search_pattern. intros [= H] E.
  apply SpanFacts.span_cuts in H.
  destruct H as (a0 & b0 & c0 & d0 & E0 & -> & -> & F1 & F2 & F3).
  assert (La : String.length a0 <= String.length a).
  { destruct (le_lt_dec (String.length a0) (String.length a)) as [L|L]; [exact L|].
    exfalso. apply (proj2 (SpanFacts.accept_branch _) (ex_intro _ b (ex_intro _ c (ex_intro _ d eq_refl)))).
    exact (F1 a _ E L). }
  split; [exact La|].
  rewrite E0 in E.
  destruct (SpanFacts.app_split a0 _ a _ E La) as (y & Ey & E1).
  destruct (SpanFacts.app_split branch_marker
              (b0 ++ blocking_marker ++ c0 ++ sync_marker ++ d0)
              (y ++ branch_marker)
              (b ++ blocking_marker ++ c ++ sync_marker ++ d)) as (y1 & Ey1 & E2).
  { rewrite StrFacts.app_assoc. exact E1. }
  { rewrite SpanFacts.length_app. lia. }
  assert (E2' : b0 ++ blocking_marker ++ c0 ++ sync_marker ++ d0
                = (y1 ++ b) ++ blocking_marker ++ c ++ sync_marker ++ d).
  { rewrite StrFacts.app_assoc. exact E2. }
  assert (Lb : String.length b0 <= String.length (y1 ++ b)).
  { destruct (le_lt_dec (String.length b0) (String.length (y1 ++ b))) as [L|L]; [exact L|].
    exfalso. apply (proj2 (SpanFacts.accept_blocking _) (ex_intro _ c (ex_intro _ d eq_refl))).
    exact (F2 (y1 ++ b) _ E2' L). }
  destruct (SpanFacts.app_split b0 _ (y1 ++ b) _ E2' Lb) as (y2 & Ey2 & E3).
  destruct (SpanFacts.app_split blocking_marker
              (c0 ++ sync_marker ++ d0)
              (y2 ++ blocking_marker)
              (c ++ sync_marker ++ d)) as (y3 & Ey3 & E4).
  { rewrite StrFacts.app_assoc. exact E3. }
  { rewrite SpanFacts.length_app. lia. }
  assert (E4' : c0 ++ sync_marker ++ d0 = (y3 ++ c) ++ sync_marker ++ d).
  { rewrite StrFacts.app_assoc. exact E4. }
  assert (Lc : String.length c0 <= String.length (y3 ++ c)).
  { destruct (le_lt_dec (String.length c0) (String.length (y3 ++ c))) as [L|L]; [exact L|].
    exfalso. apply (proj2 (SpanFacts.accept_sync _) (ex_intro _ d eq_refl)).
    exact (F3 (y3 ++ c) _ E4' L). }
  apply (f_equal String.length) in Ey, Ey1, Ey2, Ey3.
  rewrite !SpanFacts.length_app in *. lia.
Qed.

Lemma match_span_minimal_witness :
  Re.search pattern twice_example Re.DOTALL = Some (Some (11, 106)) /\
  twice_example
  = ("when (a) { " ++ scenario_found ++ " }" ++ nl ++ "when (b) { ")
    ++ branch_marker ++ " doSomething(); " ++ blocking_marker ++ " "
    ++ sync_marker ++ "(uri) } } }" /\
  11 <= String.length ("when (a) { " ++ scenario_found ++ " }" ++ nl ++ "when (b) { ") /\
  106 <= String.length
           (("when (a) { " ++ scenario_found ++ " }" ++ nl ++ "when (b) { ")
            ++ branch_marker ++ " doSomething(); " ++ blocking_marker ++ " "
            ++ sync_marker).
Proof.
  split; [reflexivity|]. split; [reflexivity|].
  apply (match_span_minimal twice_example 11 106
           ("when (a) { " ++ scenario_found ++ " }" ++ nl ++ "when (b) { ")
           " doSomething(); " " " "(uri) } } }").
  - reflexivity.
  - reflexivity.
Defined.

(** X3.  The search is not anchored: when a text gets the FOUND line, so
    does the same text with anything before it and anything behind it. *)
Theorem surrounding_text_keeps_found (w w' : world) (pre content post : string) :
  reads_as w content -> prints w FOUND ->
  reads_as w' (pre ++ content ++ post) -> prints w' FOUND.
Proof.
  intros Hr Hp Hr'. apply (ScriptFacts.in_order_prints w' _ Hr').
  apply SpanFacts.in_order_surrounded.
  exact (SpanFacts.prints_found_in_order w content Hr Hp).
Qed.

Lemma surrounding_text_keeps_found_witness :
  reads_as (world_with scenario_found) scenario_found /\
  prints (world_with scenario_found) FOUND /\
  reads_as (world_with ("package ui" ++ nl ++ scenario_found ++ nl ++ "// end"))
           ("package ui" ++ nl ++ scenario_found ++ nl ++ "// end") /\
  prints (world_with ("package ui" ++ nl ++ scenario_found ++ nl ++ "// end")) FOUND.
Proof.
  split; [reflexivity|]. split; [reflexivity|]. split; [reflexivity|].
  apply (surrounding_text_keeps_found
           (world_with scenario_found)
           (world_with ("package ui" ++ nl ++ scenario_found ++ nl ++ "// end"))
           ("package ui" ++ nl) scenario_found (nl ++ "// end")).
  - reflexivity.
  - reflexivity.
  - reflexivity.
Defined.

(** X4.  The search answers as three searches for a substring do: the FOUND
    line is printed exactly when the blocking marker occurs behind the first
    branch marker and the cache-copy marker occurs behind the first blocking
    marker that follows it.  Markers that stand before an earlier marker do
    not count. *)
Theorem found_iff_sequential (w : world) (content : string) :
  reads_as w content ->
  (prints w FOUND <-> sequential content = true) /\
  (prints w NOT_FOUND <-> sequential content = false).
Proof.
  intros Hr. pose proof (ScriptFacts.reads_prints w content Hr) as Hv.
  unfold verdict in Hv.
  pose proof (ReFacts.matched_in_order content) as Hm.
  pose proof (SpanFacts.in_order_sequential content) as Hs.
  destruct (matched content), (sequential content);
    try (destruct Hm as [Hm1 Hm2]; destruct Hs as [Hs1 Hs2];
         specialize (Hs1 (Hm1 eq_refl)); discriminate);
    try (destruct Hm as [Hm1 Hm2]; destruct Hs as [Hs1 Hs2];
         specialize (Hm2 (Hs2 eq_refl)); discriminate).
  - split; split; try easy. intros H.
    destruct ScriptFacts.found_not_found. exact (ScriptFacts.prints_inj w _ _ Hv H).
  - split; split; try easy. intros H.
    destruct ScriptFacts.found_not_found. exact (ScriptFacts.prints_inj w _ _ H Hv).
Qed.

Lemma found_iff_sequential_witness :
  reads_as (world_with reversed_example) reversed_example /\
  sequential reversed_example = false /\
  (prints (world_with reversed_example) FOUND <-> sequential reversed_example = true) /\
  (prints (world_with reversed_example) NOT_FOUND <-> sequential reversed_example = false).
Proof.
  split; [reflexivity|]. split; [reflexivity|].
  apply (found_iff_sequential (world_with reversed_example) reversed_example).
  reflexivity.
Defined.

(** X5.  When the file can be read, a run opens it once, reads it once and
    closes it, in this order, and makes no other file-system call: no handle
    stays open and nothing is opened again. *)
Theorem file_opened_read_closed (w : world) (content : string) :
  reads_as w content ->
  calls (snd (main w))
  = (calls w ++ [EvOpenRead file_path; EvRead file_path; EvClose file_path])%list.
Proof. intros Hr. now rewrite (ScriptFacts.main_reads w content Hr). Qed.

Lemma file_opened_read_closed_witness :
  reads_as (world_with scenario_not_found) scenario_not_found /\
  calls (snd (main (world_with scenario_not_found)))
  = ([] ++ [EvOpenRead file_path; EvRead file_path; EvClose file_path])%list.
Proof.
  split; [reflexivity|].
  apply (file_opened_read_closed (world_with scenario_not_found) scenario_not_found).
  reflexivity.
Defined.
